(** * CSPSTiff: a layered (Photoshop-compatible) TIFF packager

    Shallow embedding of [src/cspstiff.py] and the properties of its
    layer store ([add_layer]), its layer-record builder ([_prep_layers])
    and its writer ([write]).

    The script delegates all binary encoding to [psdtags], [tifffile] and
    [imagecodecs].  Their data classes are embedded as records holding the
    keyword arguments the script passes; their functions ([overlay],
    [tifftag], [cms_profile], [imwrite]) are the fields of the class
    [Libs], over which the whole development is parametric. *)

From Stdlib Require Import ZArith Lia Strings.Byte.
From stdpp Require Import base list strings gmap pretty.

Open Scope Z_scope.

(** ** numpy arrays *)

(** A three-dimensional array of integer samples: [shape] is the
    (height, width, channels) tuple, [data] the rows of pixels. *)
Record ndarray := mk_ndarray {
  nd_shape : nat * nat * nat;
  nd_data : list (list (list Z));
}.

Definition height (a : ndarray) : nat := fst (fst (nd_shape a)).
Definition width (a : ndarray) : nat := snd (fst (nd_shape a)).
Definition channels (a : ndarray) : nat := snd (nd_shape a).

(** [img.shape[:2]] *)
Definition shape2 (a : ndarray) : nat * nat := (height a, width a).

(** [a[i, j, k]]; samples outside the stored data read as zero. *)
Definition getitem (a : ndarray) (i j k : nat) : Z :=
  default 0 (row ← nd_data a !! i; px ← row !! j; px !! k).

(** The array of shape [(h, w, c)] whose sample at [(i, j, k)] is [f i j k]. *)
Definition tabulate (h w c : nat) (f : nat → nat → nat → Z) : ndarray :=
  {| nd_shape := (h, w, c);
     nd_data := (λ i, (λ j, f i j <$> seq 0 c) <$> seq 0 w) <$> seq 0 h |}.

(** Conversion of an integer sample to [dtype=np.uint8]. *)
Definition to_uint8 (x : Z) : Z := x mod 256.

(** Every sample of the array is an unsigned 8-bit value. *)
Definition is_uint8 (a : ndarray) : bool :=
  forallb (forallb (forallb (λ x, (0 <=? x) && (x <? 256)))) (nd_data a).

(** The data has the extent announced by the shape. *)
Definition well_shaped (a : ndarray) : bool :=
  (length (nd_data a) =? height a)%nat
  && forallb (λ row, (length row =? width a)%nat
                     && forallb (λ px, (length px =? channels a)%nat) row)
       (nd_data a).

(** [np.zeros((h, w, c), dtype=np.uint8)] *)
Definition np_zeros (h w c : nat) : ndarray := tabulate h w c (λ _ _ _, 0).

(** [dst[:, :, :n] = src], for [src] of shape [(h, w, n)] and [dst] of
    shape [(h, w, c)]: the samples are converted to the type of [dst]. *)
Definition assign_channels_below (n : nat) (dst src : ndarray) : ndarray :=
  tabulate (height dst) (width dst) (channels dst)
    (λ i j k, if (k <? n)%nat then to_uint8 (getitem src i j k)
              else getitem dst i j k).

(** [dst[:, :, n] = v] *)
Definition assign_channel (n : nat) (dst : ndarray) (v : Z) : ndarray :=
  tabulate (height dst) (width dst) (channels dst)
    (λ i j k, if (k =? n)%nat then to_uint8 v else getitem dst i j k).

(** [layer[..., k]]: the plane of channel [k]. *)
Definition plane (a : ndarray) (k : nat) : list (list Z) :=
  (λ row : list (list Z), (λ px : list Z, default 0 (px !! k)) <$> row)
    <$> nd_data a.

(** ** Exceptions, the world and the effect monad *)

Inductive exn :=
| Exception (msg : string)
| IndexError (index axis size : nat)
| LibraryError (msg : string).

(** *** psdtags enumerations and data classes *)

Inductive PsdKey := PATTERNS | LAYER | UNICODE_LAYER_NAME | LAYER_16 | LAYER_32.
Inductive PsdFormat := BE32BIT | LE32BIT | BE64BIT | LE64BIT.
Inductive PsdColorSpaceType := RGB | HSB | CMYK | Lab | Gray.
Inductive PsdChannelId :=
| CHANNEL0 | CHANNEL1 | CHANNEL2 | CHANNEL3
| TRANSPARENCY_MASK | USER_LAYER_MASK | REAL_USER_LAYER_MASK.
Inductive PsdCompressionType := RAW | RLE | ZIP | ZIP_PREDICTED.
Inductive PsdBlendMode := PASS_THROUGH | NORMAL | DISSOLVE | DARKEN | MULTIPLY.
Inductive PsdClippingType := BASE | NONBASE.
Inductive PsdLayerFlag :=
| TRANSPARENCY_PROTECTED | VISIBLE | OBSOLETE | PHOTOSHOP5 | IRRELEVANT.

Record PsdRectangle := mk_PsdRectangle {
  top : Z; left : Z; bottom : Z; right : Z;
}.

Record PsdChannel := mk_PsdChannel {
  channelid : PsdChannelId;
  ch_compression : PsdCompressionType;
  ch_data : list (list Z);
}.

Record PsdString := mk_PsdString { str_key : PsdKey; str_value : string }.

(** [PsdLayerMask()] carries no argument in this program. *)
Inductive PsdLayerMask := PsdLayerMask_default.

Record PsdLayer := mk_PsdLayer {
  name : string;
  rectangle : PsdRectangle;
  lchannels : list PsdChannel;
  mask : PsdLayerMask;
  opacity : Z;
  blendmode : PsdBlendMode;
  blending_ranges : list Z;
  clipping : PsdClippingType;
  flags : Z;
  linfo : list PsdString;
}.

Record PsdLayers := mk_PsdLayers {
  ls_key : PsdKey;
  has_transparency : bool;
  ls_layers : list PsdLayer;
}.

Record PsdUserMask := mk_PsdUserMask {
  um_colorspace : PsdColorSpaceType;
  um_components : Z * Z * Z * Z;
  um_opacity : Z;
}.

Inductive PsdInfo :=
| PsdEmpty (key : PsdKey)
| PsdFilterMask (colorspace : PsdColorSpaceType) (components : Z * Z * Z * Z)
    (opacity : Z).

(** The keyword arguments of [TiffImageSourceData]; also the entries of
    the module-level [OrderedDict], whose keys never change. *)
Record TiffImageSourceData := mk_TiffImageSourceData {
  isd_name : string;
  psdformat : PsdFormat;
  layers_entry : option PsdLayers;
  usermask : PsdUserMask;
  isd_info : list PsdInfo;
}.

(** *** tifffile *)

(** An extra tag [(code, dtype, count, value, writeonce)]. *)
Record ExtraTag := mk_ExtraTag {
  code : Z;
  dtype : Z;
  count : option Z;
  value : list byte;
  writeonce : bool;
}.

(** What one [tifffile.imwrite] call is asked to put in the file. *)
Record TiffFile := mk_TiffFile {
  raster : ndarray;
  photometric : string;
  compression : string;
  resolution : (Z * Z) * (Z * Z);
  resolutionunit : string;
  metadata : option (list (string * string));
  extratags : list ExtraTag;
}.

(** The state the program acts on besides its own object: the console,
    the module-level parameter dictionary and the files on disk. *)
Record World := mk_World {
  stdout : list string;
  PARAMS_DICT : TiffImageSourceData;
  files : gmap string TiffFile;
}.

(** Computations that read and change the world and may raise. *)
Definition M (A : Type) : Type := World → (exn + A) * World.

Definition ret {A} (a : A) : M A := λ w, (inr a, w).
Definition raise {A} (e : exn) : M A := λ w, (inl e, w).
Definition bind {A B} (m : M A) (k : A → M B) : M B :=
  λ w, match m w with
       | (inl e, w') => (inl e, w')
       | (inr a, w') => k a w'
       end.
Definition lift {A} (r : exn + A) : M A :=
  match r with inl e => raise e | inr a => ret a end.

Notation "'let!' x := m 'in' k" := (bind m (λ x, k))
  (at level 10, x name, m at level 100, k at level 200, only parsing).

Definition print (s : string) : M unit :=
  λ w, (inr tt, {| stdout := stdout w ++ [s];
                   PARAMS_DICT := PARAMS_DICT w;
                   files := files w |}).

(** The dictionary [d] after [d["layers"] = v]. *)
Definition with_layers (d : TiffImageSourceData) (v : option PsdLayers)
  : TiffImageSourceData :=
  {| isd_name := isd_name d;
     psdformat := psdformat d;
     layers_entry := v;
     usermask := usermask d;
     isd_info := isd_info d |}.

(** [TIFFIMAGESOURCEDATA_PARAMS_DICT["layers"] = v] *)
Definition set_layers_entry (v : option PsdLayers) : M unit :=
  λ w, (inr tt,
        {| stdout := stdout w;
           PARAMS_DICT := with_layers (PARAMS_DICT w) v;
           files := files w |}).

Definition get_params : M TiffImageSourceData := λ w, (inr (PARAMS_DICT w), w).

(** The dictionary as the module creates it. *)
Definition TIFFIMAGESOURCEDATA_PARAMS_DICT : TiffImageSourceData :=
  {| isd_name := "Layered TIFF";
     psdformat := LE32BIT;
     layers_entry := None;
     usermask := mk_PsdUserMask RGB (65535, 0, 0, 0) 50;
     isd_info := [PsdEmpty PATTERNS; PsdFilterMask RGB (65535, 0, 0, 0) 50] |}.

(** ** The layer store *)

Record CSPSTiff := mk_CSPSTiff {
  shape : option (nat * nat);
  layers : list (ndarray * (Z * Z));
}.

Definition __init__ (shape : option (nat * nat)) : CSPSTiff :=
  {| shape := shape; layers := [] |}.

(** How Python prints a pair of integers. *)
Definition str_tuple2 (t : nat * nat) : string :=
  "(" +:+ pretty (fst t) +:+ ", " +:+ pretty (snd t) +:+ ")".

Definition channel_notice : string := "IMG HAS ONLY 3 CHANNELS (should be RGBA)".

Definition shape_notice (got existing : nat * nat) : string :=
  "IMG shape is " +:+ str_tuple2 got +:+ ", existing shape is "
    +:+ str_tuple2 existing.

(** Lines 68-72: the RGBA copy of a three-channel image. *)
Definition rgba_of (img : ndarray) : ndarray :=
  let rgba_image := np_zeros (height img) (width img) 4 in
  let rgba_image := assign_channels_below 3 rgba_image img in
  let alpha_value := 128 in
  assign_channel 3 rgba_image alpha_value.

Definition add_layer (self : CSPSTiff) (img : ndarray) (offset : Z * Z)
  : M CSPSTiff :=
  let! img := (if (channels img =? 3)%nat
               then let! _ := print channel_notice in ret (rgba_of img)
               else ret img) in
  let! self := (match shape self with
                | None =>
                    ret {| shape := Some (shape2 img); layers := layers self |}
                | Some sh =>
                    if bool_decide (shape2 img ≠ sh)
                    then let! _ := print (shape_notice (shape2 img) sh) in
                         ret self
                    else ret self
                end) in
  ret {| shape := shape self; layers := layers self ++ [(img, offset)] |}.

(** ** The libraries the script calls *)

(** The functions of [psdtags], [imagecodecs] and [tifffile] that the
    script calls, and the integer values of the [PsdLayerFlag] members.
    [imwrite_raises] is the verdict of [tifffile.imwrite] on a path and a
    file content ([None]: the file is written); [imwrite_partial] is what
    a failed call leaves on disk. *)
Class Libs := {
  PsdLayerFlag_value : PsdLayerFlag → Z;
  overlay : list (ndarray * (Z * Z)) → option (nat * nat) → exn + ndarray;
  tifftag : TiffImageSourceData → exn + ExtraTag;
  cms_profile : string → exn + list byte;
  imwrite_raises : string → TiffFile → option exn;
  imwrite_partial :
    string → TiffFile → gmap string TiffFile → gmap string TiffFile;
}.

(** Sequencing of pure computations that may raise. *)
Definition and_then {A B} (r : exn + A) (k : A → exn + B) : exn + B :=
  match r with inl e => inl e | inr a => k a end.

Notation "'try!' x := r 'in' k" := (and_then r (λ x, k))
  (at level 10, x name, r at level 100, k at level 200, only parsing).

(** [layer[..., k]], which numpy refuses when axis 2 is too short. *)
Definition getplane (layer : ndarray) (k : nat) : exn + list (list Z) :=
  if (k <? channels layer)%nat then inr (plane layer k)
  else inl (IndexError k 2 (channels layer)).

Definition layer_name_of (layer_num : nat) : string :=
  "layer_" +:+ pretty layer_num.

Section Program.
Context `{Libs}.

(** [tifffile.imwrite(filepath, ...)] *)
Definition imwrite (filepath : string) (f : TiffFile) : M unit :=
  λ w, match imwrite_raises filepath f with
       | Some e =>
           (inl e, {| stdout := stdout w; PARAMS_DICT := PARAMS_DICT w;
                      files := imwrite_partial filepath f (files w) |})
       | None =>
           (inr tt, {| stdout := stdout w; PARAMS_DICT := PARAMS_DICT w;
                       files := <[filepath := f]> (files w) |})
       end.

(** Lines 90-129: the record of one layer. *)
Definition new_layer (layer : ndarray) (offset : Z * Z) (layer_num : nat)
  : exn + PsdLayer :=
  let layer_name := layer_name_of layer_num in
  let rectangle :=
    mk_PsdRectangle
      (fst offset)
      (snd offset)
      (fst offset + Z.of_nat (height layer))
      (snd offset + Z.of_nat (width layer)) in
  try! d3 := getplane layer 3 in
  try! d0 := getplane layer 0 in
  try! d1 := getplane layer 1 in
  try! d2 := getplane layer 2 in
  inr {| name := layer_name;
         rectangle := rectangle;
         lchannels :=
           [ mk_PsdChannel TRANSPARENCY_MASK ZIP_PREDICTED d3;
             mk_PsdChannel CHANNEL0 ZIP_PREDICTED d0;
             mk_PsdChannel CHANNEL1 ZIP_PREDICTED d1;
             mk_PsdChannel CHANNEL2 ZIP_PREDICTED d2 ];
         mask := PsdLayerMask_default;
         opacity := 255;
         blendmode := NORMAL;
         blending_ranges := [];
         clipping := BASE;
         flags := Z.lor (PsdLayerFlag_value PHOTOSHOP5)
                        (PsdLayerFlag_value TRANSPARENCY_PROTECTED);
         linfo := [mk_PsdString UNICODE_LAYER_NAME layer_name] |}.

(** The loop of [_prep_layers]: [acc] is the list built so far and
    [layer_num] the running counter. *)
Fixpoint _prep_layers_loop (todo : list (ndarray * (Z * Z)))
    (acc : list PsdLayer) (layer_num : nat) : exn + list PsdLayer :=
  match todo with
  | [] => inr acc
  | (layer, offset) :: rest =>
      try! new := new_layer layer offset layer_num in
      _prep_layers_loop rest (acc ++ [new]) (S layer_num)
  end.

Definition _prep_layers (self : CSPSTiff) : exn + list PsdLayer :=
  _prep_layers_loop (layers self) [] 0%nat.

(** Lines 155-172: the file handed to [tifffile.imwrite]. *)
Definition tiff_of (composite : ndarray) (source_tag : ExtraTag)
    (profile : list byte) : TiffFile :=
  {| raster := composite;
     photometric := "rgb";
     compression := "adobe_deflate";
     resolution := ((720000, 10000), (720000, 10000));
     resolutionunit := "inch";
     metadata := None;
     extratags := [ source_tag;
                    mk_ExtraTag 34675 7 None profile true ] |}.

Definition write (self : CSPSTiff) (filepath : string) : M unit :=
  if (length (layers self) =? 0)%nat
  then raise (Exception "not enough layers")
  else
    let! prepared := lift (_prep_layers self) in
    let ll := mk_PsdLayers LAYER false prepared in
    let! _ := set_layers_entry (Some ll) in
    let! image_source_data := get_params in
    let! composite := lift (overlay (layers self) (shape self)) in
    let! source_tag := lift (tifftag image_source_data) in
    let! profile := lift (cms_profile "srgb") in
    let! _ := imwrite filepath (tiff_of composite source_tag profile) in
    set_layers_entry None.

End Program.

(** A caller that adds the given images one after the other:
    [for img, offset in calls: self.add_layer(img, offset)]. *)
Fixpoint add_layers (self : CSPSTiff) (calls : list (ndarray * (Z * Z)))
  : M CSPSTiff :=
  match calls with
  | [] => ret self
  | (img, offset) :: rest =>
      let! self := add_layer self img offset in
      add_layers self rest
  end.

(** The world when the module has just been imported. *)
Definition initial_world : World :=
  {| stdout := []; PARAMS_DICT := TIFFIMAGESOURCEDATA_PARAMS_DICT; files := ∅ |}.

(** ** Sample data for running the embedding *)

(** A 1x2 RGB image, a 2x2 RGBA image and a 1x1 two-channel image. *)
Definition sample_rgb : ndarray :=
  {| nd_shape := (1, 2, 3)%nat;
     nd_data := [[[10; 20; 30]; [40; 50; 60]]] |}.

Definition sample_rgba : ndarray :=
  {| nd_shape := (2, 2, 4)%nat;
     nd_data := [[[1; 2; 3; 255]; [5; 6; 7; 255]];
                 [[9; 10; 11; 0]; [13; 14; 15; 0]]] |}.

Definition sample_two_channels : ndarray :=
  {| nd_shape := (1, 1, 2)%nat; nd_data := [[[7; 9]]] |}.

(** Stand-ins for the libraries: the flag values of the PSD format, a
    flattening that returns a blank canvas, fixed tag payloads, and a
    writer that refuses exactly the empty path. *)
Definition sample_libs : Libs :=
  {| PsdLayerFlag_value := λ f,
       match f with
       | TRANSPARENCY_PROTECTED => 1
       | VISIBLE => 2
       | OBSOLETE => 4
       | PHOTOSHOP5 => 8
       | IRRELEVANT => 16
       end;
     overlay := λ ls sh,
       match sh with
       | Some (h, w) => inr (np_zeros h w 4)
       | None => inl (LibraryError "shape")
       end;
     tifftag := λ d,
       inr (mk_ExtraTag 37724 7 None ["P"%byte; "S"%byte; "D"%byte] true);
     cms_profile := λ _, inr ["s"%byte; "R"%byte; "G"%byte; "B"%byte];
     imwrite_raises := λ path _,
       if bool_decide (path = "") then Some (LibraryError "cannot open")
       else None;
     imwrite_partial := λ _ _ fs, fs |}.

(** A store holding [sample_rgba] at the origin. *)
Definition sample_store : CSPSTiff :=
  {| shape := Some (2, 2)%nat; layers := [(sample_rgba, (0, 0))] |}.

(** ** What one [add_layer] call stores and prints *)

(** The array [add_layer] stores for the argument [img]. *)
Definition stored_pixels (img : ndarray) : ndarray :=
  if (channels img =? 3)%nat then rgba_of img else img.

(** The lines [add_layer] prints for the argument [img]. *)
Definition notices (self : CSPSTiff) (img : ndarray) : list string :=
  (if (channels img =? 3)%nat then [channel_notice] else [])
  ++ match shape self with
     | Some sh =>
         if bool_decide (shape2 img ≠ sh)
         then [shape_notice (shape2 img) sh] else []
     | None => []
     end.

(** The canvas shape after [add_layer] has seen [img]. *)
Definition shape_after (self : CSPSTiff) (img : ndarray) : option (nat * nat) :=
  match shape self with
  | None => Some (shape2 img)
  | Some sh => Some sh
  end.

(** * Properties *)

(** ** Arrays *)

Section Arrays.
Implicit Types (a img : ndarray) (i j k h w c : nat).

Local Ltac extent :=
  cbv [height width channels assign_channel assign_channels_below np_zeros
       tabulate nd_shape fst snd] in *; lia.

Lemma getitem_tabulate h w c f i j k :
  (i < h)%nat → (j < w)%nat → (k < c)%nat →
  getitem (tabulate h w c f) i j k = f i j k.
Proof.
  intros Hi Hj Hk. unfold getitem, tabulate; simpl.
  rewrite list_lookup_fmap, lookup_seq_lt by done; simpl.
  rewrite list_lookup_fmap, lookup_seq_lt by done; simpl.
  by rewrite list_lookup_fmap, lookup_seq_lt.
Qed.

Lemma plane_tabulate h w c f k :
  (k < c)%nat →
  plane (tabulate h w c f) k
  = (λ i, (λ j, f i j k) <$> seq 0 w) <$> seq 0 h.
Proof.
  intros Hk. unfold plane, tabulate; simpl.
  rewrite <- list_fmap_compose. apply list_fmap_ext; intros _ i _; simpl.
  rewrite <- list_fmap_compose. apply list_fmap_ext; intros _ j _; simpl.
  by rewrite list_lookup_fmap, lookup_seq_lt.
Qed.

Lemma well_shaped_tabulate h w c f : well_shaped (tabulate h w c f) = true.
Proof.
  unfold well_shaped, tabulate, height, width, channels; simpl.
  rewrite length_fmap, length_seq, Nat.eqb_refl; simpl.
  apply forallb_forall; intros row [i [<- _]]%in_map_iff.
  rewrite length_fmap, length_seq, Nat.eqb_refl; simpl.
  apply forallb_forall; intros px [j [<- _]]%in_map_iff.
  rewrite length_fmap, length_seq. apply Nat.eqb_refl.
Qed.

Lemma to_uint8_range x : 0 ≤ to_uint8 x < 256.
Proof. unfold to_uint8. apply Z.mod_pos_bound. lia. Qed.

Lemma to_uint8_id x : 0 ≤ x < 256 → to_uint8 x = x.
Proof. intros. unfold to_uint8. by apply Z.mod_small. Qed.

(** Reading a [uint8] array always gives a [uint8] value. *)
Lemma getitem_uint8 a i j k : is_uint8 a = true → 0 ≤ getitem a i j k < 256.
Proof.
  unfold is_uint8, getitem. intros Ha.
  destruct (nd_data a !! i) as [row|] eqn:Hrow; simpl; [|lia].
  destruct (row !! j) as [px|] eqn:Hpx; simpl; [|lia].
  destruct (px !! k) as [x|] eqn:Hx; simpl; [|lia].
  rewrite forallb_forall in Ha.
  apply list_elem_of_lookup_2, list_elem_of_In, Ha in Hrow.
  rewrite forallb_forall in Hrow.
  apply list_elem_of_lookup_2, list_elem_of_In, Hrow in Hpx.
  rewrite forallb_forall in Hpx.
  apply list_elem_of_lookup_2, list_elem_of_In, Hpx in Hx.
  apply andb_true_iff in Hx as [?%Z.leb_le ?%Z.ltb_lt]. lia.
Qed.

Lemma rgba_of_shape img : nd_shape (rgba_of img) = (height img, width img, 4%nat).
Proof. done. Qed.

Lemma rgba_of_well_shaped img : well_shaped (rgba_of img) = true.
Proof. apply well_shaped_tabulate. Qed.

(** Channels 0 to 2 of the copy are the input's, converted to [uint8]. *)
Lemma rgba_of_colour img i j k :
  (i < height img)%nat → (j < width img)%nat → (k < 3)%nat →
  getitem (rgba_of img) i j k = to_uint8 (getitem img i j k).
Proof.
  intros Hi Hj Hk. unfold rgba_of, assign_channel.
  rewrite getitem_tabulate by extent.
  destruct (Nat.eqb_spec k 3) as [->|_]; [lia|].
  unfold assign_channels_below.
  rewrite getitem_tabulate by extent.
  by destruct (Nat.ltb_spec k 3); [|lia].
Qed.

Lemma rgba_of_alpha img i j :
  (i < height img)%nat → (j < width img)%nat →
  getitem (rgba_of img) i j 3 = 128.
Proof.
  intros Hi Hj. unfold rgba_of, assign_channel.
  by rewrite getitem_tabulate by extent.
Qed.

Lemma rgba_of_alpha_plane img :
  plane (rgba_of img) 3 = replicate (height img) (replicate (width img) 128).
Proof.
  unfold rgba_of, assign_channel.
  rewrite plane_tabulate by extent. simpl.
  rewrite (const_fmap _ _ (replicate (width img) 128)).
  - by rewrite length_seq.
  - intros i. rewrite (const_fmap _ _ 128) by done. by rewrite length_seq.
Qed.

End Arrays.

(** ** The layer store *)

Section Store.
Implicit Types (self : CSPSTiff) (img : ndarray) (offset : Z * Z) (w : World).

Lemma stored_pixels_shape2 img : shape2 (stored_pixels img) = shape2 img.
Proof. unfold stored_pixels. by destruct (channels img =? 3)%nat. Qed.

Lemma stored_pixels_other img : channels img ≠ 3%nat → stored_pixels img = img.
Proof.
  intros Hc. unfold stored_pixels. by destruct (Nat.eqb_spec (channels img) 3).
Qed.

(** [add_layer] in closed form: it never raises, appends one entry,
    fixes the canvas shape if there was none and prints [notices]. *)
Lemma add_layer_eq self img offset w :
  add_layer self img offset w
  = (inr {| shape := shape_after self img;
            layers := layers self ++ [(stored_pixels img, offset)] |},
     {| stdout := stdout w ++ notices self img;
        PARAMS_DICT := PARAMS_DICT w;
        files := files w |}).
Proof.
  pose proof (stored_pixels_shape2 img) as Hsh. revert Hsh.
  unfold add_layer, stored_pixels, notices, shape_after, bind, print, ret.
  destruct w as [out d fs], self as [[sh|] ls]; simpl;
    destruct (channels img =? 3)%nat; simpl; intros Hsh; rewrite ?Hsh;
    try case_bool_decide; simpl;
    rewrite <- ?app_assoc, ?app_nil_r; reflexivity.
Qed.

Lemma add_layers_eq calls : ∀ self w,
  ∃ self' w',
    add_layers self calls w = (inr self', w')
    ∧ layers self'
      = layers self ++ ((λ c, (stored_pixels c.1, c.2)) <$> calls)
    ∧ (∀ sh, shape self = Some sh → shape self' = Some sh)
    ∧ PARAMS_DICT w' = PARAMS_DICT w ∧ files w' = files w.
Proof.
  induction calls as [|[img offset] calls IH]; intros self w; simpl.
  - eexists _, _. split; [reflexivity|]. by rewrite app_nil_r.
  - unfold bind. rewrite add_layer_eq.
    edestruct IH as (self' & w' & -> & Hl & Hs & Hd & Hf).
    eexists _, _. split; [reflexivity|].
    rewrite Hl, Hd, Hf; simpl. rewrite <- app_assoc. repeat split.
    intros sh Hsh. apply Hs. unfold shape_after; simpl. by rewrite Hsh.
Qed.

End Store.

(** ** Claims about [add_layer] *)

(** C2. An image whose third dimension is 3 is stored as a four-channel
    array of the same height and width: every sample of its fourth
    (alpha) channel is 128, its first three channels are the input's
    sample for sample (the input being an array of unsigned 8-bit
    samples), the channel-count notice is printed and the call returns
    normally. *)
Theorem add_layer_rgb_gets_alpha (self : CSPSTiff) (img : ndarray)
    (offset : Z * Z) (w : World) :
  channels img = 3%nat →
  is_uint8 img = true →
  ∃ stored self' w',
    add_layer self img offset w = (inr self', w')
    ∧ layers self' = layers self ++ [(stored, offset)]
    ∧ nd_shape stored = (height img, width img, 4%nat)
    ∧ well_shaped stored = true
    ∧ plane stored 3 = replicate (height img) (replicate (width img) 128)
    ∧ (∀ i j, (i < height img)%nat → (j < width img)%nat →
         getitem stored i j 3 = 128)
    ∧ (∀ i j k, (i < height img)%nat → (j < width img)%nat → (k < 3)%nat →
         getitem stored i j k = getitem img i j k)
    ∧ ∃ rest, stdout w' = stdout w ++ channel_notice :: rest.
Proof.
  intros Hc Hu. eexists (rgba_of img), _, _. rewrite add_layer_eq.
  split; [reflexivity|]. unfold stored_pixels, notices. rewrite Hc; simpl.
  repeat split.
  - apply rgba_of_well_shaped.
  - apply rgba_of_alpha_plane.
  - apply rgba_of_alpha.
  - intros i j k Hi Hj Hk. rewrite rgba_of_colour by done.
    apply to_uint8_id, getitem_uint8, Hu.
  - by eexists.
Qed.

Lemma add_layer_rgb_gets_alpha_witness :
  channels sample_rgb = 3%nat ∧ is_uint8 sample_rgb = true
  ∧ ∃ stored self' w',
      add_layer (__init__ None) sample_rgb (4, 5) initial_world
      = (inr self', w')
      ∧ layers self' = layers (__init__ None) ++ [(stored, (4, 5))]
      ∧ nd_shape stored = (height sample_rgb, width sample_rgb, 4%nat)
      ∧ well_shaped stored = true
      ∧ plane stored 3
        = replicate (height sample_rgb) (replicate (width sample_rgb) 128)
      ∧ (∀ i j, (i < height sample_rgb)%nat → (j < width sample_rgb)%nat →
           getitem stored i j 3 = 128)
      ∧ (∀ i j k, (i < height sample_rgb)%nat → (j < width sample_rgb)%nat →
           (k < 3)%nat → getitem stored i j k = getitem sample_rgb i j k)
      ∧ ∃ rest, stdout w' = stdout initial_world ++ channel_notice :: rest.
Proof.
  split; [reflexivity|]. split; [reflexivity|].
  apply (add_layer_rgb_gets_alpha (__init__ None) sample_rgb (4, 5)
           initial_world); reflexivity.
Defined.

(** C3. When the canvas shape is unset, an [add_layer] call sets it to
    the (height, width) of its image; once the shape is set, no sequence
    of [add_layer] calls changes it; and an image whose (height, width)
    differs from the set shape is neither rejected, resized nor cropped:
    the call returns normally, the entry it appends has the height and
    width of the image and the caller's offset (it is the image itself
    unless its channel count is 3, when it is the RGBA copy), and the only
    effect besides is the printed notices, the last of which reports the
    mismatch. *)
Theorem canvas_shape_set_once_and_kept :
  (∀ self img offset w,
     shape self = None →
     ∃ self' w',
       add_layer self img offset w = (inr self', w')
       ∧ shape self' = Some (height img, width img))
  ∧ (∀ self sh calls w,
       shape self = Some sh →
       ∃ self' w',
         add_layers self calls w = (inr self', w') ∧ shape self' = Some sh)
  ∧ (∀ self sh img offset w,
       shape self = Some sh →
       (height img, width img) ≠ sh →
       ∃ stored w',
         add_layer self img offset w
         = (inr {| shape := Some sh;
                   layers := layers self ++ [(stored, offset)] |}, w')
         ∧ (height stored, width stored) = (height img, width img)
         ∧ stored = (if (channels img =? 3)%nat then rgba_of img else img)
         ∧ (channels img ≠ 3%nat → stored = img)
         ∧ stdout w'
           = stdout w
             ++ (if (channels img =? 3)%nat then [channel_notice] else [])
             ++ [shape_notice (height img, width img) sh]
         ∧ PARAMS_DICT w' = PARAMS_DICT w
         ∧ files w' = files w).
Proof.
  split; [|split].
  - intros self img offset w Hs. eexists _, _. rewrite add_layer_eq.
    split; [reflexivity|]. unfold shape_after; simpl. by rewrite Hs.
  - intros self sh calls w Hs.
    destruct (add_layers_eq calls self w) as (self' & w' & E & _ & Hk & _).
    eexists _, _. split; [exact E|]. by apply Hk.
  - intros self sh img offset w Hs Hne. eexists (stored_pixels img), _.
    rewrite add_layer_eq. unfold shape_after, notices. rewrite Hs.
    split; [reflexivity|]. simpl.
    split; [apply stored_pixels_shape2|].
    split; [reflexivity|].
    split; [apply stored_pixels_other|].
    rewrite bool_decide_eq_true_2 by exact Hne. done.
Qed.

Lemma canvas_shape_set_once_and_kept_witness :
  (∃ self' w',
     add_layer (__init__ None) sample_rgba (0, 0) initial_world
     = (inr self', w')
     ∧ shape self' = Some (2, 2)%nat)
  ∧ (∃ self' w',
       add_layers (__init__ (Some (7, 9)%nat))
         [(sample_rgba, (0, 0)); (sample_rgb, (1, 1))] initial_world
       = (inr self', w')
       ∧ shape self' = Some (7, 9)%nat)
  ∧ (∃ stored w',
       add_layer (__init__ (Some (7, 9)%nat)) sample_rgba (3, -2)
         initial_world
       = (inr {| shape := Some (7, 9)%nat;
                 layers := [(stored, (3, -2))] |}, w')
       ∧ stored = sample_rgba
       ∧ stdout w' = ["IMG shape is (2, 2), existing shape is (7, 9)"]).
Proof.
  destruct canvas_shape_set_once_and_kept as (Hfirst & Hkeep & Hmismatch).
  split; [|split].
  - apply (Hfirst (__init__ None) sample_rgba (0, 0) initial_world).
    reflexivity.
  - apply (Hkeep (__init__ (Some (7, 9)%nat)) (7, 9)%nat). reflexivity.
  - destruct (Hmismatch (__init__ (Some (7, 9)%nat)) (7, 9)%nat sample_rgba
                (3, -2) initial_world)
      as (stored & w' & E & _ & _ & Hsame & Hout & _);
      [reflexivity | discriminate |].
    exists stored, w'. split; [exact E|]. split; [by apply Hsame|].
    exact Hout.
Defined.

Lemma shape_notice_not_channel_notice got existing :
  shape_notice got existing ≠ channel_notice.
Proof. unfold shape_notice, channel_notice. simpl. discriminate. Qed.

(** C10 as stated fails: a four-channel image whose height and width
    differ from a canvas shape given at construction is stored with a
    diagnostic printed. *)
Lemma add_layer_four_channels_prints :
  channels sample_rgba = 4%nat
  ∧ add_layer (__init__ (Some (1, 1)%nat)) sample_rgba (0, 0) initial_world
    = (inr {| shape := Some (1, 1)%nat;
              layers := [(sample_rgba, (0, 0))] |},
       {| stdout := ["IMG shape is (2, 2), existing shape is (1, 1)"];
          PARAMS_DICT := PARAMS_DICT initial_world;
          files := files initial_world |})
  ∧ stdout initial_world = [].
Proof. repeat split. Qed.

(** C10, amended. An image whose third dimension is not 3 is appended
    unchanged: the call returns normally, no alpha is synthesised and the
    channel-count notice is not printed; the only line the call can print
    is the shape-mismatch notice, and it prints nothing when the canvas
    shape is unset or equal to the image's (height, width).  Every
    [add_layer] call, whatever the image, appends exactly one
    (pixels, offset) entry after the entries already stored. *)
Theorem add_layer_other_channel_counts :
  (∀ self img offset w,
     channels img ≠ 3%nat →
     ∃ self' w' printed,
       add_layer self img offset w = (inr self', w')
       ∧ layers self' = layers self ++ [(img, offset)]
       ∧ stdout w' = stdout w ++ printed
       ∧ (channel_notice ∉ printed)
       ∧ (shape self = None ∨ shape self = Some (height img, width img) →
          printed = [])
       ∧ (∀ sh, shape self = Some sh → (height img, width img) ≠ sh →
          printed = [shape_notice (height img, width img) sh]))
  ∧ (∀ self img offset w,
       ∃ self' w' pixels,
         add_layer self img offset w = (inr self', w')
         ∧ layers self' = layers self ++ [(pixels, offset)]
         ∧ length (layers self') = S (length (layers self))
         ∧ take (length (layers self)) (layers self') = layers self).
Proof.
  split.
  - intros self img offset w Hc. eexists _, _, _. rewrite add_layer_eq.
    split; [reflexivity|]. simpl. rewrite stored_pixels_other by done.
    split; [reflexivity|]. split; [reflexivity|].
    unfold notices. destruct (Nat.eqb_spec (channels img) 3) as [|_]; [done|].
    simpl. unfold shape2. destruct (shape self) as [sh|].
    + case_bool_decide as Hne.
      * split; [|split].
        -- intros [E|E]%list_elem_of_In; [|done].
           by apply (shape_notice_not_channel_notice _ _ E).
        -- intros [?|[=]]; congruence.
        -- by intros ? [= <-] _.
      * split; [by intros ?%elem_of_nil|]. split; [done|].
        intros ? [= <-] ?. done.
    + split; [by intros ?%elem_of_nil|]. split; [done|]. by intros ? [=].
  - intros self img offset w. eexists _, _, _. rewrite add_layer_eq.
    split; [reflexivity|]. simpl. split; [reflexivity|].
    split; [rewrite length_app; simpl; lia|]. by rewrite take_app_length.
Qed.

Lemma add_layer_other_channel_counts_witness :
  (∃ self' w' printed,
     add_layer sample_store sample_two_channels (5, 6) initial_world
     = (inr self', w')
     ∧ layers self' = layers sample_store ++ [(sample_two_channels, (5, 6))]
     ∧ stdout w' = stdout initial_world ++ printed
     ∧ (channel_notice ∉ printed))
  ∧ (∃ self' w' pixels,
       add_layer sample_store sample_rgb (1, 0) initial_world = (inr self', w')
       ∧ layers self' = layers sample_store ++ [(pixels, (1, 0))]).
Proof.
  destruct add_layer_other_channel_counts as [Hother Hone]. split.
  - destruct (Hother sample_store sample_two_channels (5, 6) initial_world)
      as (self' & w' & printed & E & Hl & Hout & Hno & _); [discriminate|].
    by exists self', w', printed.
  - destruct (Hone sample_store sample_rgb (1, 0) initial_world)
      as (self' & w' & pixels & E & Hl & _).
    by exists self', w', pixels.
Defined.

(** ** The layer records *)

Section Records.
Context `{Libs}.
Implicit Types (self : CSPSTiff) (layer : ndarray) (offset : Z * Z).
Implicit Types (rec : PsdLayer) (recs acc : list PsdLayer).

Lemma getplane_ok layer k :
  (k < channels layer)%nat → getplane layer k = inr (plane layer k).
Proof. intros Hk. unfold getplane. by destruct (Nat.ltb_spec k (channels layer)); [|lia]. Qed.

Lemma getplane_inv layer k d :
  getplane layer k = inr d → (k < channels layer)%nat ∧ d = plane layer k.
Proof.
  unfold getplane. destruct (Nat.ltb_spec k (channels layer)); [|done].
  by intros [= <-].
Qed.

(** A layer with at least four channels always yields a record. *)
Lemma new_layer_ok layer offset n :
  (4 ≤ channels layer)%nat → ∃ rec, new_layer layer offset n = inr rec.
Proof.
  intros Hc. unfold new_layer.
  rewrite !getplane_ok by lia. simpl. by eexists.
Qed.

(** Everything a record says, read off the call that built it. *)
Lemma new_layer_inv layer offset n rec :
  new_layer layer offset n = inr rec →
  (4 ≤ channels layer)%nat
  ∧ name rec = layer_name_of n
  ∧ rectangle rec
    = mk_PsdRectangle (fst offset) (snd offset)
        (fst offset + Z.of_nat (height layer))
        (snd offset + Z.of_nat (width layer))
  ∧ lchannels rec
    = [ mk_PsdChannel TRANSPARENCY_MASK ZIP_PREDICTED (plane layer 3);
        mk_PsdChannel CHANNEL0 ZIP_PREDICTED (plane layer 0);
        mk_PsdChannel CHANNEL1 ZIP_PREDICTED (plane layer 1);
        mk_PsdChannel CHANNEL2 ZIP_PREDICTED (plane layer 2) ]
  ∧ opacity rec = 255
  ∧ blendmode rec = NORMAL
  ∧ clipping rec = BASE
  ∧ flags rec = Z.lor (PsdLayerFlag_value PHOTOSHOP5)
                      (PsdLayerFlag_value TRANSPARENCY_PROTECTED)
  ∧ linfo rec = [mk_PsdString UNICODE_LAYER_NAME (layer_name_of n)].
Proof.
  unfold new_layer.
  destruct (getplane layer 3) as [|d3] eqn:E3; [done|].
  destruct (getplane layer 0) as [|d0] eqn:E0; [done|].
  destruct (getplane layer 1) as [|d1] eqn:E1; [done|].
  destruct (getplane layer 2) as [|d2] eqn:E2; [done|].
  apply getplane_inv in E3 as [? ->], E0 as [_ ->], E1 as [_ ->], E2 as [_ ->].
  simpl. intros [= <-]. simpl. repeat split; lia.
Qed.

(** A layer with fewer than four channels stops the loop. *)
Lemma new_layer_too_few_channels layer offset n :
  (channels layer < 4)%nat →
  new_layer layer offset n = inl (IndexError 3 2 (channels layer)).
Proof.
  intros Hc. unfold new_layer, getplane.
  by destruct (Nat.ltb_spec 3 (channels layer)); [lia|].
Qed.

(** The loop appends to [acc], in order, the record of each layer, the
    [i]-th one built with counter [n + i]. *)
Lemma prep_loop_inv todo : ∀ acc n recs,
  _prep_layers_loop todo acc n = inr recs →
  ∃ news,
    recs = acc ++ news
    ∧ length news = length todo
    ∧ ∀ i layer offset,
        todo !! i = Some (layer, offset) →
        ∃ rec, news !! i = Some rec
               ∧ new_layer layer offset (n + i) = inr rec.
Proof.
  induction todo as [|[layer offset] todo IH]; intros acc n recs; simpl.
  - intros [= <-]. exists []. rewrite app_nil_r. repeat split. by intros i ? ?.
  - unfold and_then. destruct (new_layer layer offset n) as [|new] eqn:E; [done|].
    intros (news & -> & Hlen & Hnth)%IH. exists (new :: news).
    rewrite <- app_assoc. simpl. repeat split; [by rewrite Hlen|].
    intros [|i] layer' offset'; simpl.
    + intros [= <- <-]. exists new. by rewrite Nat.add_0_r.
    + intros Hi. destruct (Hnth _ _ _ Hi) as (rec & ? & Hrec).
      exists rec. split; [done|]. by replace (n + S i)%nat with (S n + i)%nat by lia.
Qed.

Lemma prep_loop_ok todo : ∀ acc n,
  Forall (λ e, (4 ≤ channels e.1)%nat) todo →
  ∃ recs, _prep_layers_loop todo acc n = inr recs.
Proof.
  induction todo as [|[layer offset] todo IH]; intros acc n Hall; simpl.
  - by eexists.
  - apply Forall_cons in Hall as [Hc Hall]. simpl in Hc.
    destruct (new_layer_ok layer offset n Hc) as [new ->]. simpl.
    by apply IH.
Qed.

(** [_prep_layers] returns one record per stored layer, in order, the
    [i]-th built from the [i]-th layer with counter [i]. *)
Lemma prep_layers_inv self recs :
  _prep_layers self = inr recs →
  length recs = length (layers self)
  ∧ ∀ i layer offset,
      layers self !! i = Some (layer, offset) →
      ∃ rec, recs !! i = Some rec ∧ new_layer layer offset i = inr rec.
Proof.
  unfold _prep_layers. intros (news & -> & Hlen & Hnth)%prep_loop_inv.
  simpl. split; [done|]. intros i layer offset Hi.
  by destruct (Hnth _ _ _ Hi) as (rec & ? & ?); exists rec.
Qed.

Lemma prep_layers_ok self :
  Forall (λ e, (4 ≤ channels e.1)%nat) (layers self) →
  ∃ recs, _prep_layers self = inr recs.
Proof. apply prep_loop_ok. Qed.

Lemma flag_lor_marks (a b : Z) : Z.land (Z.lor a b) b = b.
Proof.
  apply Z.bits_inj'. intros k _.
  rewrite Z.land_spec, Z.lor_spec. by destruct (Z.testbit a k), (Z.testbit b k).
Qed.

End Records.

(** ** Claims about [_prep_layers] *)

Section RecordClaims.
Context `{Libs}.

(** C4. When every stored layer has four channels, [_prep_layers] returns
    exactly one record per stored layer, in insertion order, and the
    record of a layer stored with offset (r, c) and pixel shape (h, w, 4)
    has the rectangle (top, left, bottom, right) = (r, c, r + h, c + w). *)
Theorem prep_layers_rectangles (self : CSPSTiff) :
  Forall (λ e, channels e.1 = 4%nat) (layers self) →
  ∃ recs,
    _prep_layers self = inr recs
    ∧ length recs = length (layers self)
    ∧ ∀ i img r c h w,
        layers self !! i = Some (img, (r, c)) →
        nd_shape img = (h, w, 4%nat) →
        rectangle <$> recs !! i
        = Some {| top := r; left := c;
                  bottom := r + Z.of_nat h; right := c + Z.of_nat w |}.
Proof.
  intros Hall.
  destruct (prep_layers_ok self) as [recs Hrecs].
  { eapply Forall_impl; [exact Hall|]. simpl. intros ? ->. lia. }
  exists recs. split; [done|].
  destruct (prep_layers_inv _ _ Hrecs) as [Hlen Hnth]. split; [done|].
  intros i img r c h w Hi Hshape.
  destruct (Hnth _ _ _ Hi) as (rec & -> & Hrec).
  apply new_layer_inv in Hrec as (_ & _ & Hrect & _). simpl.
  rewrite Hrect. unfold height, width. by rewrite Hshape.
Qed.

(** The names depend on the position only. *)
Lemma prep_layers_names (self : CSPSTiff) recs i rec :
  _prep_layers self = inr recs → recs !! i = Some rec →
  name rec = "layer_" +:+ pretty i.
Proof.
  intros [Hlen Hnth]%prep_layers_inv Hi.
  assert (is_Some (layers self !! i)) as [[layer offset] Hl].
  { apply lookup_lt_is_Some. rewrite <- Hlen. by eapply lookup_lt_Some. }
  destruct (Hnth _ _ _ Hl) as (rec' & Hi' & Hrec).
  assert (rec' = rec) as -> by congruence.
  by apply new_layer_inv in Hrec as (_ & -> & _).
Qed.

(** C5. For any sequence of [add_layer] calls on a new store (with
    images of at least three channels, whatever their content, offsets
    and the notices they trigger), the stored layers are those of the
    calls in order, and the record built for the layer of the N-th call,
    counting from 0, is named [layer_N]. *)
Theorem layer_names_positional (shape0 : option (nat * nat))
    (calls : list (ndarray * (Z * Z))) (w : World) :
  Forall (λ call, (3 ≤ channels call.1)%nat) calls →
  ∃ self w' recs,
    add_layers (__init__ shape0) calls w = (inr self, w')
    ∧ layers self = (λ call, (stored_pixels call.1, call.2)) <$> calls
    ∧ _prep_layers self = inr recs
    ∧ length recs = length calls
    ∧ ∀ N, (N < length calls)%nat →
        name <$> recs !! N = Some ("layer_" +:+ pretty N).
Proof.
  intros Hall.
  destruct (add_layers_eq calls (__init__ shape0) w)
    as (self & w' & Hrun & Hl & _).
  simpl in Hl.
  destruct (prep_layers_ok self) as [recs Hrecs].
  { rewrite Hl. apply Forall_fmap. eapply Forall_impl; [exact Hall|].
    intros [img offset]; simpl. unfold stored_pixels.
    destruct (Nat.eqb_spec (channels img) 3); [done|lia]. }
  assert (length (layers self) = length calls) as Hlen
    by (by rewrite Hl, length_fmap).
  exists self, w', recs. repeat split; try done.
  - apply prep_layers_inv in Hrecs as [-> _]. done.
  - intros N HN.
    assert (is_Some (recs !! N)) as [rec Hrec].
    { apply lookup_lt_is_Some.
      apply prep_layers_inv in Hrecs as [-> _]. by rewrite Hlen. }
    rewrite Hrec; simpl. f_equal. by eapply prep_layers_names.
Qed.

(** C6. Every record [_prep_layers] returns has blend mode NORMAL,
    opacity 255, clipping BASE and flags PHOTOSHOP5 | TRANSPARENCY_PROTECTED
    (so the transparency-protected bit is set), and exactly four channel
    entries: the transparency mask holding the layer's channel 3, then
    CHANNEL0, CHANNEL1 and CHANNEL2 holding its channels 0, 1 and 2, each
    with compression ZIP_PREDICTED. *)
Theorem layer_record_constants (self : CSPSTiff) (recs : list PsdLayer)
    (i : nat) (rec : PsdLayer) :
  _prep_layers self = inr recs →
  recs !! i = Some rec →
  blendmode rec = NORMAL
  ∧ opacity rec = 255
  ∧ clipping rec = BASE
  ∧ flags rec = Z.lor (PsdLayerFlag_value PHOTOSHOP5)
                      (PsdLayerFlag_value TRANSPARENCY_PROTECTED)
  ∧ Z.land (flags rec) (PsdLayerFlag_value TRANSPARENCY_PROTECTED)
    = PsdLayerFlag_value TRANSPARENCY_PROTECTED
  ∧ length (lchannels rec) = 4%nat
  ∧ channelid <$> lchannels rec
    = [TRANSPARENCY_MASK; CHANNEL0; CHANNEL1; CHANNEL2]
  ∧ Forall (λ ch, ch_compression ch = ZIP_PREDICTED) (lchannels rec)
  ∧ ∃ layer offset,
      layers self !! i = Some (layer, offset)
      ∧ ch_data <$> lchannels rec
        = [plane layer 3; plane layer 0; plane layer 1; plane layer 2].
Proof.
  intros [Hlen Hnth]%prep_layers_inv Hi.
  assert (is_Some (layers self !! i)) as [[layer offset] Hl].
  { apply lookup_lt_is_Some. rewrite <- Hlen. by eapply lookup_lt_Some. }
  destruct (Hnth _ _ _ Hl) as (rec' & Hi' & Hrec).
  assert (rec' = rec) as -> by congruence.
  apply new_layer_inv in Hrec
    as (_ & _ & _ & Hch & Hop & Hbl & Hcl & Hfl & _).
  rewrite Hch, Hfl. repeat split; try done.
  - apply flag_lor_marks.
  - repeat constructor.
  - by exists layer, offset.
Qed.

End RecordClaims.

Lemma prep_layers_rectangles_witness :
  Forall (λ e, channels e.1 = 4%nat) (layers sample_store)
  ∧ ∃ recs,
      @_prep_layers sample_libs sample_store = inr recs
      ∧ length recs = length (layers sample_store)
      ∧ ∀ i img r c h w,
          layers sample_store !! i = Some (img, (r, c)) →
          nd_shape img = (h, w, 4%nat) →
          rectangle <$> recs !! i
          = Some {| top := r; left := c;
                    bottom := r + Z.of_nat h; right := c + Z.of_nat w |}.
Proof.
  assert (Forall (λ e, channels e.1 = 4%nat) (layers sample_store)) as Hall
    by (repeat constructor).
  split; [exact Hall|].
  exact (@prep_layers_rectangles sample_libs sample_store Hall).
Defined.

Lemma layer_names_positional_witness :
  Forall (λ call, (3 ≤ channels call.1)%nat)
    [(sample_rgb, (0, 0)); (sample_rgba, (1, 2))]
  ∧ ∃ self w' recs,
      add_layers (__init__ None) [(sample_rgb, (0, 0)); (sample_rgba, (1, 2))]
        initial_world
      = (inr self, w')
      ∧ layers self
        = (λ call, (stored_pixels call.1, call.2))
            <$> [(sample_rgb, (0, 0)); (sample_rgba, (1, 2))]
      ∧ @_prep_layers sample_libs self = inr recs
      ∧ length recs = 2%nat
      ∧ ∀ N, (N < 2)%nat → name <$> recs !! N = Some ("layer_" +:+ pretty N).
Proof.
  assert (Forall (λ call, (3 ≤ channels call.1)%nat)
            [(sample_rgb, (0, 0)); (sample_rgba, (1, 2))]) as Hall
    by (repeat constructor; simpl; unfold channels; simpl; lia).
  split; [exact Hall|].
  exact (@layer_names_positional sample_libs None _ initial_world Hall).
Defined.

Lemma layer_record_constants_witness :
  ∃ recs rec,
    @_prep_layers sample_libs sample_store = inr recs
    ∧ recs !! 0%nat = Some rec
    ∧ blendmode rec = NORMAL
    ∧ opacity rec = 255
    ∧ clipping rec = BASE
    ∧ flags rec = Z.lor 8 1
    ∧ Z.land (flags rec) 1 = 1
    ∧ length (lchannels rec) = 4%nat
    ∧ channelid <$> lchannels rec
      = [TRANSPARENCY_MASK; CHANNEL0; CHANNEL1; CHANNEL2]
    ∧ Forall (λ ch, ch_compression ch = ZIP_PREDICTED) (lchannels rec)
    ∧ ∃ layer offset,
        layers sample_store !! 0%nat = Some (layer, offset)
        ∧ ch_data <$> lchannels rec
          = [plane layer 3; plane layer 0; plane layer 1; plane layer 2].
Proof.
  eexists _, _. split; [reflexivity|]. split; [reflexivity|].
  exact (@layer_record_constants sample_libs sample_store _ 0%nat _
           eq_refl eq_refl).
Defined.

(** ** The writer *)

Section Writer.
Context `{Libs}.
Implicit Types (self : CSPSTiff) (filepath : string) (w : World).

(** [write], step by step, on a store that holds layers: once the
    records, the composite and the two tags are computed, the outcome is
    the writer's. *)
Lemma write_steps self filepath w prepared composite source_tag profile :
  layers self ≠ [] →
  _prep_layers self = inr prepared →
  overlay (layers self) (shape self) = inr composite →
  tifftag (with_layers (PARAMS_DICT w)
             (Some (mk_PsdLayers LAYER false prepared))) = inr source_tag →
  cms_profile "srgb" = inr profile →
  write self filepath w
  = match imwrite_raises filepath (tiff_of composite source_tag profile) with
    | None =>
        (inr tt,
         {| stdout := stdout w;
            PARAMS_DICT := with_layers (PARAMS_DICT w) None;
            files := <[filepath := tiff_of composite source_tag profile]>
                       (files w) |})
    | Some e =>
        (inl e,
         {| stdout := stdout w;
            PARAMS_DICT := with_layers (PARAMS_DICT w)
                             (Some (mk_PsdLayers LAYER false prepared));
            files := imwrite_partial filepath
                       (tiff_of composite source_tag profile) (files w) |})
    end.
Proof.
  intros Hne Hprep Hov Htag Hicc. unfold write.
  destruct (layers self) as [|l ls] eqn:Hl; [done|]. simpl.
  unfold bind, lift, set_layers_entry, get_params, imwrite, ret. rewrite Hprep.
  simpl. rewrite Hov, Htag, Hicc. simpl.
  by destruct (imwrite_raises filepath _).
Qed.

(** A [write] that returns went through every step. *)
Lemma write_returns_inv self filepath w w' :
  write self filepath w = (inr tt, w') →
  ∃ prepared composite source_tag profile,
    layers self ≠ []
    ∧ _prep_layers self = inr prepared
    ∧ overlay (layers self) (shape self) = inr composite
    ∧ tifftag (with_layers (PARAMS_DICT w)
                 (Some (mk_PsdLayers LAYER false prepared))) = inr source_tag
    ∧ cms_profile "srgb" = inr profile
    ∧ imwrite_raises filepath (tiff_of composite source_tag profile) = None
    ∧ w' = {| stdout := stdout w;
              PARAMS_DICT := with_layers (PARAMS_DICT w) None;
              files := <[filepath := tiff_of composite source_tag profile]>
                         (files w) |}.
Proof.
  unfold write. destruct (layers self) as [|l ls] eqn:Hl; [done|]. simpl.
  unfold bind, lift, set_layers_entry, get_params, imwrite, ret, raise.
  destruct (_prep_layers self) as [|prepared]; [done|]. simpl.
  destruct (overlay (l :: ls) (shape self)) as [|composite]; [done|].
  destruct (tifftag _) as [|source_tag] eqn:Htag; [done|].
  destruct (cms_profile "srgb") as [|profile]; [done|]. simpl.
  destruct (imwrite_raises filepath _) eqn:Hw; [done|]. simpl.
  intros [= <-]. by exists prepared, composite, source_tag, profile.
Qed.

(** C1. On a store without layers, [write] raises the exception with
    message "not enough layers" (the empty-input error) before anything
    else happens: no file is written and the console, the parameter
    dictionary and the files are as before. *)
Theorem write_without_layers self filepath w :
  layers self = [] →
  write self filepath w = (inl (Exception "not enough layers"), w).
Proof. intros Hl. unfold write. by rewrite Hl. Qed.

(** C7. After a [write] that returned, a second [write] on the same store
    returns as well whenever the writer accepts its path (as it does for
    the path of the first call), and the file it produces has the same
    raster, indeed the same content, as the first; the first file still
    has that content. *)
Theorem write_twice_same_raster self filepath w w1 :
  write self filepath w = (inr tt, w1) →
  ∃ f1,
    files w1 !! filepath = Some f1
    ∧ imwrite_raises filepath f1 = None
    ∧ ∀ filepath2,
        imwrite_raises filepath2 f1 = None →
        ∃ w2 f2,
          write self filepath2 w1 = (inr tt, w2)
          ∧ files w2 !! filepath2 = Some f2
          ∧ files w2 !! filepath = Some f1
          ∧ raster f2 = raster f1
          ∧ f2 = f1.
Proof.
  intros (prepared & composite & source_tag & profile
          & Hne & Hprep & Hov & Htag & Hicc & Hw & ->)%write_returns_inv.
  simpl. eexists. split; [apply lookup_insert_eq|]. split; [done|].
  intros filepath2 Hw2. eexists _, _.
  rewrite (write_steps self filepath2 _ prepared composite source_tag profile)
    by done.
  rewrite Hw2. split; [reflexivity|]. simpl.
  split; [apply lookup_insert_eq|]. split; [|done].
  rewrite lookup_insert. case_decide; [done|]. apply lookup_insert_eq.
Qed.

(** C8. The file a returning [write] leaves at its path has photometric
    "rgb", compression "adobe_deflate", resolution (720000/10000,
    720000/10000), that is 72 on both axes, resolution unit "inch", no
    metadata, and exactly two extra tags: the tag [tifftag] makes of the
    image source data (the parameter dictionary with this call's layer
    records), then tag 34675 of type 7 holding the "srgb" profile bytes,
    with [writeonce] set. *)
Theorem write_container_parameters self filepath w w' :
  write self filepath w = (inr tt, w') →
  ∃ f prepared source_tag profile,
    files w' !! filepath = Some f
    ∧ photometric f = "rgb"
    ∧ compression f = "adobe_deflate"
    ∧ resolution f = ((720000, 10000), (720000, 10000))
    ∧ (resolution f).1.1 = 72 * (resolution f).1.2
    ∧ (resolution f).2.1 = 72 * (resolution f).2.2
    ∧ resolutionunit f = "inch"
    ∧ metadata f = None
    ∧ overlay (layers self) (shape self) = inr (raster f)
    ∧ _prep_layers self = inr prepared
    ∧ tifftag (with_layers (PARAMS_DICT w)
                 (Some (mk_PsdLayers LAYER false prepared))) = inr source_tag
    ∧ cms_profile "srgb" = inr profile
    ∧ extratags f
      = [ source_tag;
          {| code := 34675; dtype := 7; count := None; value := profile;
             writeonce := true |} ].
Proof.
  intros (prepared & composite & source_tag & profile
          & Hne & Hprep & Hov & Htag & Hicc & Hw & ->)%write_returns_inv.
  exists (tiff_of composite source_tag profile), prepared, source_tag, profile.
  simpl. split; [apply lookup_insert_eq|]. by repeat split.
Qed.

(** C9. [write] stores this call's layer list in the shared dictionary's
    "layers" entry.  When the call returns, the entry is [None] again;
    when the file-writing step raises, the exception leaves [write] with
    the entry still holding the layer list, so the dictionary differs
    from one whose entry was [None] before the call.  No other entry
    changes in either case. *)
Theorem write_shared_dictionary_entry self filepath w :
  (∀ w', write self filepath w = (inr tt, w') →
         PARAMS_DICT w' = with_layers (PARAMS_DICT w) None
         ∧ layers_entry (PARAMS_DICT w') = None)
  ∧ (∀ prepared composite source_tag profile e,
       layers self ≠ [] →
       _prep_layers self = inr prepared →
       overlay (layers self) (shape self) = inr composite →
       tifftag (with_layers (PARAMS_DICT w)
                  (Some (mk_PsdLayers LAYER false prepared)))
       = inr source_tag →
       cms_profile "srgb" = inr profile →
       imwrite_raises filepath (tiff_of composite source_tag profile)
       = Some e →
       ∃ w', write self filepath w = (inl e, w')
             ∧ PARAMS_DICT w'
               = with_layers (PARAMS_DICT w)
                   (Some (mk_PsdLayers LAYER false prepared))
             ∧ layers_entry (PARAMS_DICT w')
               = Some (mk_PsdLayers LAYER false prepared)
             ∧ (layers_entry (PARAMS_DICT w) = None →
                PARAMS_DICT w' ≠ PARAMS_DICT w)).
Proof.
  split.
  - intros w' (prepared & composite & source_tag & profile
               & _ & _ & _ & _ & _ & _ & ->)%write_returns_inv. done.
  - intros prepared composite source_tag profile e Hne Hprep Hov Htag Hicc Hw.
    eexists.
    rewrite (write_steps self filepath w prepared composite source_tag profile)
      by done.
    rewrite Hw. split; [reflexivity|]. simpl. repeat split.
    intros Hnone Heq. apply (f_equal layers_entry) in Heq. simpl in Heq.
    congruence.
Qed.

End Writer.

Lemma write_without_layers_witness :
  layers (__init__ (Some (4, 4)%nat)) = []
  ∧ @write sample_libs (__init__ (Some (4, 4)%nat)) "out.tif" initial_world
    = (inl (Exception "not enough layers"), initial_world).
Proof.
  split; [reflexivity|].
  apply (@write_without_layers sample_libs). reflexivity.
Defined.

Lemma write_twice_same_raster_witness :
  ∃ w1,
    @write sample_libs sample_store "out.tif" initial_world = (inr tt, w1)
    ∧ ∃ f1,
        files w1 !! "out.tif" = Some f1
        ∧ @imwrite_raises sample_libs "out.tif" f1 = None
        ∧ ∀ filepath2,
            @imwrite_raises sample_libs filepath2 f1 = None →
            ∃ w2 f2,
              @write sample_libs sample_store filepath2 w1 = (inr tt, w2)
              ∧ files w2 !! filepath2 = Some f2
              ∧ files w2 !! "out.tif" = Some f1
              ∧ raster f2 = raster f1
              ∧ f2 = f1.
Proof.
  eexists. split; [vm_compute; reflexivity|].
  exact (@write_twice_same_raster sample_libs sample_store "out.tif"
           initial_world _ eq_refl).
Defined.

Lemma write_container_parameters_witness :
  ∃ w',
    @write sample_libs sample_store "out.tif" initial_world = (inr tt, w')
    ∧ ∃ f prepared source_tag profile,
        files w' !! "out.tif" = Some f
        ∧ photometric f = "rgb"
        ∧ compression f = "adobe_deflate"
        ∧ resolution f = ((720000, 10000), (720000, 10000))
        ∧ (resolution f).1.1 = 72 * (resolution f).1.2
        ∧ (resolution f).2.1 = 72 * (resolution f).2.2
        ∧ resolutionunit f = "inch"
        ∧ metadata f = None
        ∧ @overlay sample_libs (layers sample_store) (shape sample_store)
          = inr (raster f)
        ∧ @_prep_layers sample_libs sample_store = inr prepared
        ∧ @tifftag sample_libs
            (with_layers (PARAMS_DICT initial_world)
               (Some (mk_PsdLayers LAYER false prepared)))
          = inr source_tag
        ∧ @cms_profile sample_libs "srgb" = inr profile
        ∧ extratags f
          = [ source_tag;
              {| code := 34675; dtype := 7; count := None; value := profile;
                 writeonce := true |} ].
Proof.
  eexists. split; [vm_compute; reflexivity|].
  exact (@write_container_parameters sample_libs sample_store "out.tif"
           initial_world _ eq_refl).
Defined.

Lemma write_shared_dictionary_entry_witness :
  (∃ w',
     @write sample_libs sample_store "out.tif" initial_world = (inr tt, w')
     ∧ layers_entry (PARAMS_DICT w') = None)
  ∧ (∃ e w' prepared,
       @write sample_libs sample_store "" initial_world = (inl e, w')
       ∧ @_prep_layers sample_libs sample_store = inr prepared
       ∧ layers_entry (PARAMS_DICT w')
         = Some (mk_PsdLayers LAYER false prepared)
       ∧ PARAMS_DICT w' ≠ PARAMS_DICT initial_world).
Proof.
  split.
  - eexists. split; [vm_compute; reflexivity|].
    destruct (@write_shared_dictionary_entry sample_libs sample_store
                "out.tif" initial_world) as [Hok _].
    exact (proj2 (Hok _ eq_refl)).
  - destruct (@write_shared_dictionary_entry sample_libs sample_store
                "" initial_world) as [_ Hraise].
    destruct (Hraise _ _ _ _ (LibraryError "cannot open")
                ltac:(discriminate) eq_refl eq_refl eq_refl eq_refl eq_refl)
      as (w' & Hw & _ & Hentry & Hdiff).
    eexists _, w', _. split; [exact Hw|]. split; [reflexivity|].
    split; [exact Hentry|]. apply Hdiff. reflexivity.
Defined.

(** * Further properties of the code *)

(** ** What the store holds *)

Section StoredLayers.
Implicit Types (self : CSPSTiff) (img : ndarray) (offset : Z * Z) (w : World).

Lemma is_uint8_tabulate (h wd c : nat) f :
  (∀ i j k, (i < h)%nat → (j < wd)%nat → (k < c)%nat → 0 ≤ f i j k < 256) →
  is_uint8 (tabulate h wd c f) = true.
Proof.
  intros Hf. unfold is_uint8, tabulate; simpl.
  apply forallb_forall. intros row [i [<- [_ Hi]%in_seq]]%in_map_iff.
  apply forallb_forall. intros px [j [<- [_ Hj]%in_seq]]%in_map_iff.
  apply forallb_forall. intros x [k [<- [_ Hk]%in_seq]]%in_map_iff.
  specialize (Hf i j k). simpl in *.
  apply andb_true_iff. split; [apply Z.leb_le | apply Z.ltb_lt]; lia.
Qed.

(** The RGBA copy consists of [uint8] samples, whatever the input. *)
Lemma rgba_of_uint8 img : is_uint8 (rgba_of img) = true.
Proof.
  apply is_uint8_tabulate. intros i j k _ _ _.
  destruct (k =? 3)%nat; [apply to_uint8_range|].
  apply getitem_uint8, is_uint8_tabulate. intros i' j' k' _ _ _.
  destruct (k' <? 3)%nat; [apply to_uint8_range|].
  apply getitem_uint8, is_uint8_tabulate. intros; lia.
Qed.

Lemma stored_pixels_not_three img : channels (stored_pixels img) ≠ 3%nat.
Proof.
  unfold stored_pixels.
  by destruct (Nat.eqb_spec (channels img) 3) as [E|E].
Qed.

(** X1. Adding well-shaped [uint8] images of three or four channels keeps
    the store's layers well-shaped [uint8] arrays of exactly four
    channels: if all stored layers are so before a sequence of
    [add_layer] calls, all are so after it. *)
Theorem add_layers_keeps_rgba self calls w :
  Forall (λ e, channels e.1 = 4%nat ∧ well_shaped e.1 = true
               ∧ is_uint8 e.1 = true) (layers self) →
  Forall (λ call, (channels call.1 = 3%nat ∨ channels call.1 = 4%nat)
                  ∧ well_shaped call.1 = true ∧ is_uint8 call.1 = true)
    calls →
  ∃ self' w',
    add_layers self calls w = (inr self', w')
    ∧ length (layers self') = (length (layers self) + length calls)%nat
    ∧ Forall (λ e, channels e.1 = 4%nat ∧ well_shaped e.1 = true
                   ∧ is_uint8 e.1 = true) (layers self').
Proof.
  intros Hold Hnew.
  destruct (add_layers_eq calls self w) as (self' & w' & Hrun & Hl & _).
  exists self', w'. split; [done|]. rewrite Hl.
  split; [by rewrite length_app, length_fmap|].
  apply Forall_app. split; [done|]. apply Forall_fmap.
  eapply Forall_impl; [exact Hnew|].
  intros [img offset]; simpl. intros (Hc & Hw & Hu). unfold stored_pixels.
  destruct (Nat.eqb_spec (channels img) 3) as [E|E].
  - split; [done|]. split; [apply rgba_of_well_shaped | apply rgba_of_uint8].
  - by destruct Hc.
Qed.

(** X2. No array that [add_layer] stores has exactly three channels, so a
    stored array handed to [add_layer] again (on any store) is appended
    as it is, without the channel-count notice. *)
Theorem stored_layer_added_again self img offset w self2 offset2 w2 :
  ∃ stored self' w' self2' w2' printed,
    add_layer self img offset w = (inr self', w')
    ∧ layers self' = layers self ++ [(stored, offset)]
    ∧ channels stored ≠ 3%nat
    ∧ add_layer self2 stored offset2 w2 = (inr self2', w2')
    ∧ layers self2' = layers self2 ++ [(stored, offset2)]
    ∧ stdout w2' = stdout w2 ++ printed
    ∧ (channel_notice ∉ printed).
Proof.
  exists (stored_pixels img). eexists _, _, _, _, _.
  rewrite !add_layer_eq. split; [reflexivity|]. split; [reflexivity|].
  pose proof (stored_pixels_not_three img) as Hc. split; [done|].
  rewrite (stored_pixels_other (stored_pixels img)) by done.
  split; [reflexivity|]. split; [reflexivity|]. split; [reflexivity|].
  unfold notices. destruct (Nat.eqb_spec (channels (stored_pixels img)) 3);
    [done|]. simpl.
  destruct (shape self2) as [sh|]; [|by intros ?%elem_of_nil].
  case_bool_decide; [|by intros ?%elem_of_nil].
  intros [E|E]%list_elem_of_In; [|done].
  by apply (shape_notice_not_channel_notice _ _ E).
Qed.

End StoredLayers.

Lemma add_layers_keeps_rgba_witness :
  ∃ self' w',
    add_layers sample_store [(sample_rgb, (0, 1)); (sample_rgba, (2, 3))]
      initial_world
    = (inr self', w')
    ∧ length (layers self') = (length (layers sample_store) + 2)%nat
    ∧ Forall (λ e, channels e.1 = 4%nat ∧ well_shaped e.1 = true
                   ∧ is_uint8 e.1 = true) (layers self').
Proof.
  apply (add_layers_keeps_rgba sample_store
           [(sample_rgb, (0, 1)); (sample_rgba, (2, 3))] initial_world).
  - repeat constructor.
  - repeat constructor; by left || by right.
Defined.

(** ** When the records can be built *)

Section RecordEdges.
Context `{Libs}.
Implicit Types (self : CSPSTiff) (layer img : ndarray) (offset : Z * Z).

Lemma prep_loop_short pre : ∀ layer offset post acc n,
  Forall (λ e, (4 ≤ channels e.1)%nat) pre →
  (channels layer < 4)%nat →
  _prep_layers_loop (pre ++ (layer, offset) :: post) acc n
  = inl (IndexError 3 2 (channels layer)).
Proof.
  induction pre as [|[l o] pre IH]; intros layer offset post acc n Hpre Hc;
    simpl.
  - by rewrite new_layer_too_few_channels.
  - apply Forall_cons in Hpre as [Hl Hpre]. simpl in Hl.
    destruct (new_layer_ok l o n Hl) as [new ->]. simpl. by apply IH.
Qed.

Lemma prep_layers_needs_four self recs :
  _prep_layers self = inr recs →
  Forall (λ e, (4 ≤ channels e.1)%nat) (layers self).
Proof.
  intros [_ Hnth]%prep_layers_inv. apply Forall_lookup_2.
  intros i [layer offset] Hi. simpl.
  destruct (Hnth _ _ _ Hi) as (rec & _ & Hrec).
  by apply new_layer_inv in Hrec as [? _].
Qed.

(** X3. [_prep_layers] returns records exactly when every stored layer
    has at least four channels.  Otherwise it raises the index error of
    the first layer that has fewer, and [write] passes that error on
    without having changed the console, the shared dictionary or any
    file. *)
Theorem prep_layers_returns_iff self :
  ((∃ recs, _prep_layers self = inr recs)
   ↔ Forall (λ e, (4 ≤ channels e.1)%nat) (layers self))
  ∧ ∀ pre layer offset post filepath w,
      layers self = pre ++ (layer, offset) :: post →
      Forall (λ e, (4 ≤ channels e.1)%nat) pre →
      (channels layer < 4)%nat →
      _prep_layers self = inl (IndexError 3 2 (channels layer))
      ∧ write self filepath w = (inl (IndexError 3 2 (channels layer)), w).
Proof.
  split.
  - split; [intros [recs Hr]; by eapply prep_layers_needs_four|].
    apply prep_layers_ok.
  - intros pre layer offset post filepath w Hl Hpre Hc.
    assert (_prep_layers self = inl (IndexError 3 2 (channels layer))) as Hp.
    { unfold _prep_layers. rewrite Hl. by apply prep_loop_short. }
    split; [done|]. unfold write.
    destruct (layers self) as [|l ls] eqn:E; [by destruct pre|]. simpl.
    unfold bind, lift. by rewrite Hp.
Qed.

(** X4. [add_layer] accepts an image of fewer than three channels, but
    once it is stored after layers of at least four channels, every
    [write] raises the index error for that image and changes nothing. *)
Theorem short_image_accepted_then_write_fails self img offset w :
  Forall (λ e, (4 ≤ channels e.1)%nat) (layers self) →
  (channels img < 3)%nat →
  ∃ self' w',
    add_layer self img offset w = (inr self', w')
    ∧ layers self' = layers self ++ [(img, offset)]
    ∧ ∀ filepath w'',
        write self' filepath w''
        = (inl (IndexError 3 2 (channels img)), w'').
Proof.
  intros Hall Hc. eexists _, _. rewrite add_layer_eq.
  split; [reflexivity|]. simpl.
  rewrite stored_pixels_other by lia. split; [reflexivity|].
  intros filepath w''. unfold write; simpl.
  rewrite length_app; simpl.
  replace (length (layers self) + 1 =? 0)%nat with false
    by (symmetry; apply Nat.eqb_neq; lia).
  unfold bind, lift, _prep_layers; simpl.
  rewrite prep_loop_short by (done || lia). done.
Qed.

(** X5. The records of one [_prep_layers] call have pairwise different
    names, and each record's Unicode layer name entry repeats its name. *)
Theorem record_names_distinct self recs i j a b :
  _prep_layers self = inr recs →
  recs !! i = Some a →
  recs !! j = Some b →
  linfo a = [mk_PsdString UNICODE_LAYER_NAME (name a)]
  ∧ (i ≠ j → name a ≠ name b).
Proof.
  intros Hprep Hi Hj.
  destruct (prep_layers_inv _ _ Hprep) as [Hlen Hnth].
  assert (∀ k rec, recs !! k = Some rec →
            name rec = layer_name_of k
            ∧ linfo rec = [mk_PsdString UNICODE_LAYER_NAME (layer_name_of k)])
    as Hname.
  { intros k rec Hk.
    assert (is_Some (layers self !! k)) as [[layer offset] Hl].
    { apply lookup_lt_is_Some. rewrite <- Hlen. by eapply lookup_lt_Some. }
    destruct (Hnth _ _ _ Hl) as (rec' & Hk' & Hrec).
    assert (rec' = rec) as -> by congruence.
    by apply new_layer_inv in Hrec as (_ & ? & _ & _ & _ & _ & _ & _ & ?). }
  destruct (Hname _ _ Hi) as [Ha Hia], (Hname _ _ Hj) as [Hb _].
  split; [by rewrite Hia, Ha|].
  intros Hne. rewrite Ha, Hb. unfold layer_name_of.
  intros E%(inj (String.app "layer_"))%(inj pretty). done.
Qed.

Lemma plane_extent layer k :
  well_shaped layer = true →
  length (plane layer k) = height layer
  ∧ Forall (λ row, length row = width layer) (plane layer k).
Proof.
  unfold well_shaped, plane.
  intros [Hh%Nat.eqb_eq Hrows]%andb_true_iff.
  rewrite length_fmap. split; [done|].
  apply Forall_fmap, Forall_forall. intros row Hrow%list_elem_of_In. simpl.
  rewrite forallb_forall in Hrows.
  apply Hrows, andb_true_iff in Hrow as [Hw%Nat.eqb_eq _].
  by rewrite length_fmap.
Qed.

(** X6. In the record of a well-shaped layer, the data of each of the
    four channels has as many rows as the rectangle is high
    (bottom - top) and each row as many samples as it is wide
    (right - left), whatever the offset. *)
Theorem record_channels_fit_rectangle self recs i rec layer offset :
  _prep_layers self = inr recs →
  recs !! i = Some rec →
  layers self !! i = Some (layer, offset) →
  well_shaped layer = true →
  Forall (λ ch,
            Z.of_nat (length (ch_data ch))
            = bottom (rectangle rec) - top (rectangle rec)
            ∧ Forall (λ row, Z.of_nat (length row)
                             = right (rectangle rec) - left (rectangle rec))
                (ch_data ch))
    (lchannels rec).
Proof.
  intros [_ Hnth]%prep_layers_inv Hi Hl Hw.
  destruct (Hnth _ _ _ Hl) as (rec' & Hi' & Hrec).
  assert (rec' = rec) as -> by congruence.
  apply new_layer_inv in Hrec as (_ & _ & -> & -> & _). simpl.
  repeat constructor; simpl;
    destruct (plane_extent layer 0 Hw), (plane_extent layer 1 Hw),
      (plane_extent layer 2 Hw), (plane_extent layer 3 Hw);
    try lia;
    (eapply Forall_impl; [eassumption|]; simpl; intros; lia).
Qed.

(** X7. A three-channel image added after layers of at least four
    channels gets a record, named by its position, whose rectangle is the
    image's extent placed at the offset and whose transparency-mask
    channel holds 128 in every sample. *)
Theorem rgb_image_record self img offset w :
  Forall (λ e, (4 ≤ channels e.1)%nat) (layers self) →
  channels img = 3%nat →
  ∃ self' w' recs rec,
    add_layer self img offset w = (inr self', w')
    ∧ _prep_layers self' = inr recs
    ∧ length recs = S (length (layers self))
    ∧ recs !! length (layers self) = Some rec
    ∧ name rec = "layer_" +:+ pretty (length (layers self))
    ∧ rectangle rec
      = {| top := offset.1; left := offset.2;
           bottom := offset.1 + Z.of_nat (height img);
           right := offset.2 + Z.of_nat (width img) |}
    ∧ lchannels rec !! 0%nat
      = Some (mk_PsdChannel TRANSPARENCY_MASK ZIP_PREDICTED
                (replicate (height img) (replicate (width img) 128))).
Proof.
  intros Hall Hc. eexists _, _. rewrite add_layer_eq.
  set (self' := {| shape := _; layers := _ |}).
  destruct (prep_layers_ok self') as [recs Hrecs].
  { simpl. apply Forall_app. split; [done|]. repeat constructor. simpl.
    unfold stored_pixels. rewrite Hc. simpl. unfold channels.
    rewrite rgba_of_shape. simpl. lia. }
  destruct (prep_layers_inv _ _ Hrecs) as [Hlen Hnth].
  destruct (Hnth (length (layers self)) (stored_pixels img) offset)
    as (rec & Hrec & Hnew).
  { simpl. by apply list_lookup_middle. }
  exists recs, rec. split; [reflexivity|]. split; [done|].
  split; [rewrite Hlen; simpl; rewrite length_app; simpl; lia|].
  split; [done|].
  apply new_layer_inv in Hnew as (_ & -> & -> & -> & _).
  split; [done|]. unfold stored_pixels. rewrite Hc. simpl.
  by rewrite rgba_of_alpha_plane.
Qed.

End RecordEdges.

Lemma prep_layers_returns_iff_witness :
  @_prep_layers sample_libs
    {| shape := Some (2, 2)%nat;
       layers := [(sample_rgba, (0, 0)); (sample_two_channels, (1, 1));
                  (sample_rgba, (4, 4))] |}
  = inl (IndexError 3 2 (channels sample_two_channels))
  ∧ @write sample_libs
      {| shape := Some (2, 2)%nat;
         layers := [(sample_rgba, (0, 0)); (sample_two_channels, (1, 1));
                    (sample_rgba, (4, 4))] |}
      "out.tif" initial_world
    = (inl (IndexError 3 2 (channels sample_two_channels)), initial_world).
Proof.
  destruct (@prep_layers_returns_iff sample_libs
              {| shape := Some (2, 2)%nat;
                 layers := [(sample_rgba, (0, 0));
                            (sample_two_channels, (1, 1));
                            (sample_rgba, (4, 4))] |}) as [_ Hshort].
  apply (Hshort [(sample_rgba, (0, 0))] sample_two_channels (1, 1)
           [(sample_rgba, (4, 4))] "out.tif" initial_world).
  - reflexivity.
  - repeat constructor.
  - unfold channels; simpl; lia.
Defined.

Lemma short_image_accepted_then_write_fails_witness :
  ∃ self' w',
    add_layer sample_store sample_two_channels (1, 1) initial_world
    = (inr self', w')
    ∧ layers self' = layers sample_store ++ [(sample_two_channels, (1, 1))]
    ∧ ∀ filepath w'',
        @write sample_libs self' filepath w''
        = (inl (IndexError 3 2 (channels sample_two_channels)), w'').
Proof.
  apply (@short_image_accepted_then_write_fails sample_libs sample_store
           sample_two_channels (1, 1) initial_world).
  - repeat constructor.
  - unfold channels; simpl; lia.
Defined.

Lemma record_names_distinct_witness :
  ∃ recs a b,
    @_prep_layers sample_libs
      {| shape := Some (2, 2)%nat;
         layers := [(sample_rgba, (0, 0)); (sample_rgba, (4, 4))] |}
    = inr recs
    ∧ recs !! 0%nat = Some a
    ∧ recs !! 1%nat = Some b
    ∧ linfo a = [mk_PsdString UNICODE_LAYER_NAME (name a)]
    ∧ (0%nat ≠ 1%nat → name a ≠ name b).
Proof.
  eexists _, _, _. split; [vm_compute; reflexivity|].
  split; [reflexivity|]. split; [reflexivity|].
  exact (@record_names_distinct sample_libs
           {| shape := Some (2, 2)%nat;
              layers := [(sample_rgba, (0, 0)); (sample_rgba, (4, 4))] |}
           _ 0%nat 1%nat _ _ eq_refl eq_refl eq_refl).
Defined.

Lemma record_channels_fit_rectangle_witness :
  ∃ recs rec,
    @_prep_layers sample_libs sample_store = inr recs
    ∧ recs !! 0%nat = Some rec
    ∧ Forall (λ ch,
                Z.of_nat (length (ch_data ch))
                = bottom (rectangle rec) - top (rectangle rec)
                ∧ Forall (λ row, Z.of_nat (length row)
                                 = right (rectangle rec)
                                   - left (rectangle rec))
                    (ch_data ch))
        (lchannels rec).
Proof.
  eexists _, _. split; [vm_compute; reflexivity|]. split; [reflexivity|].
  exact (@record_channels_fit_rectangle sample_libs sample_store _ 0%nat _
           sample_rgba (0, 0) eq_refl eq_refl eq_refl eq_refl).
Defined.

Lemma rgb_image_record_witness :
  ∃ self' w' recs rec,
    add_layer sample_store sample_rgb (3, -1) initial_world = (inr self', w')
    ∧ @_prep_layers sample_libs self' = inr recs
    ∧ length recs = S (length (layers sample_store))
    ∧ recs !! length (layers sample_store) = Some rec
    ∧ name rec = "layer_" +:+ pretty (length (layers sample_store))
    ∧ rectangle rec
      = {| top := 3; left := -1;
           bottom := 3 + Z.of_nat (height sample_rgb);
           right := -1 + Z.of_nat (width sample_rgb) |}
    ∧ lchannels rec !! 0%nat
      = Some (mk_PsdChannel TRANSPARENCY_MASK ZIP_PREDICTED
                (replicate (height sample_rgb)
                   (replicate (width sample_rgb) 128))).
Proof.
  apply (@rgb_image_record sample_libs sample_store sample_rgb (3, -1)
           initial_world).
  - repeat constructor.
  - reflexivity.
Defined.

(** ** How [write] ends *)

Section WriterEdges.
Context `{Libs}.
Implicit Types (self : CSPSTiff) (filepath : string) (w : World).

Lemma with_layers_None_id d : layers_entry d = None → with_layers d None = d.
Proof. destruct d; simpl. by intros ->. Qed.

Lemma with_layers_agree da db v :
  with_layers da None = with_layers db None → with_layers da v = with_layers db v.
Proof. unfold with_layers. intros [= -> -> -> ->]. done. Qed.

(** X8. [write] returns exactly when the store holds at least one layer,
    every layer has at least four channels, and [overlay], [tifftag],
    [cms_profile] and [imwrite] all accept what they are given. *)
Theorem write_returns_iff self filepath w :
  (∃ w', write self filepath w = (inr tt, w'))
  ↔ layers self ≠ []
    ∧ Forall (λ e, (4 ≤ channels e.1)%nat) (layers self)
    ∧ ∃ prepared composite source_tag profile,
        _prep_layers self = inr prepared
        ∧ overlay (layers self) (shape self) = inr composite
        ∧ tifftag (with_layers (PARAMS_DICT w)
                     (Some (mk_PsdLayers LAYER false prepared)))
          = inr source_tag
        ∧ cms_profile "srgb" = inr profile
        ∧ imwrite_raises filepath (tiff_of composite source_tag profile)
          = None.
Proof.
  split.
  - intros [w' (prepared & composite & source_tag & profile
                & Hne & Hprep & Hov & Htag & Hicc & Hw & _)%write_returns_inv].
    split; [done|]. split; [by eapply prep_layers_needs_four|].
    by exists prepared, composite, source_tag, profile.
  - intros (Hne & _ & prepared & composite & source_tag & profile
            & Hprep & Hov & Htag & Hicc & Hw).
    eexists.
    rewrite (write_steps self filepath w prepared composite source_tag profile)
      by done.
    by rewrite Hw.
Qed.

(** X9. Every way [write] can raise.  Either the store is empty, or
    [_prep_layers] raised: then nothing has changed.  Or a library raised
    after the records were built: then the console is as before and the
    dictionary's "layers" entry holds the records; the files are as
    before unless it was [imwrite] that raised. *)
Theorem write_raises_cases self filepath w e w' :
  write self filepath w = (inl e, w') →
  (layers self = [] ∧ e = Exception "not enough layers" ∧ w' = w)
  ∨ (layers self ≠ [] ∧ _prep_layers self = inl e ∧ w' = w)
  ∨ ∃ prepared,
      layers self ≠ []
      ∧ _prep_layers self = inr prepared
      ∧ stdout w' = stdout w
      ∧ PARAMS_DICT w'
        = with_layers (PARAMS_DICT w)
            (Some (mk_PsdLayers LAYER false prepared))
      ∧ ((files w' = files w
          ∧ (overlay (layers self) (shape self) = inl e
             ∨ tifftag (with_layers (PARAMS_DICT w)
                          (Some (mk_PsdLayers LAYER false prepared)))
               = inl e
             ∨ cms_profile "srgb" = inl e))
         ∨ ∃ composite source_tag profile,
             overlay (layers self) (shape self) = inr composite
             ∧ tifftag (with_layers (PARAMS_DICT w)
                          (Some (mk_PsdLayers LAYER false prepared)))
               = inr source_tag
             ∧ cms_profile "srgb" = inr profile
             ∧ imwrite_raises filepath (tiff_of composite source_tag profile)
               = Some e
             ∧ files w'
               = imwrite_partial filepath
                   (tiff_of composite source_tag profile) (files w)).
Proof.
  unfold write. destruct (layers self) as [|l ls] eqn:Hl; simpl.
  { intros [= <- <-]. by left. }
  unfold bind, lift, set_layers_entry, get_params, imwrite, ret, raise.
  destruct (_prep_layers self) as [e0|prepared]; simpl.
  { intros [= <- <-]. right; left. done. }
  intros Hrun. right; right. exists prepared.
  split; [done|]. split; [done|].
  destruct (overlay (l :: ls) (shape self)) as [e1|composite].
  { injection Hrun as <- <-. simpl. repeat split. left. split; [done|]. by left. }
  destruct (tifftag _) as [e2|source_tag] eqn:Htag.
  { injection Hrun as <- <-. simpl. repeat split. left. split; [done|].
    right; by left. }
  destruct (cms_profile "srgb") as [e3|profile]; simpl in Hrun.
  { injection Hrun as <- <-. simpl. repeat split. left. split; [done|].
    right; by right. }
  destruct (imwrite_raises filepath _) as [e4|] eqn:Hw; simpl in Hrun;
    [|done].
  injection Hrun as <- <-. simpl. repeat split. right.
  by exists composite, source_tag, profile.
Qed.

(** X10. A [write] that returns prints nothing, leaves every file at
    another path as it was, and changes no dictionary entry other than
    "layers"; if that entry was [None] before the call, the whole
    dictionary is as it was. *)
Theorem write_returns_frame self filepath w w' :
  write self filepath w = (inr tt, w') →
  stdout w' = stdout w
  ∧ (∀ other, other ≠ filepath → files w' !! other = files w !! other)
  ∧ with_layers (PARAMS_DICT w') None = with_layers (PARAMS_DICT w) None
  ∧ (layers_entry (PARAMS_DICT w) = None → PARAMS_DICT w' = PARAMS_DICT w).
Proof.
  intros (prepared & composite & source_tag & profile
          & _ & _ & _ & _ & _ & _ & ->)%write_returns_inv. simpl.
  split; [done|]. split; [by intros other Hne; apply lookup_insert_ne|].
  split; [done|]. apply with_layers_None_id.
Qed.

(** The outcome of [write] and the file it writes depend on the world
    only through the dictionary entries other than "layers". *)
Lemma write_depends_on_other_entries self filepath wa wb :
  with_layers (PARAMS_DICT wa) None = with_layers (PARAMS_DICT wb) None →
  (write self filepath wa).1 = (write self filepath wb).1
  ∧ ∀ wa', write self filepath wa = (inr tt, wa') →
      ∃ wb', write self filepath wb = (inr tt, wb')
             ∧ files wa' !! filepath = files wb' !! filepath
             ∧ PARAMS_DICT wa' = PARAMS_DICT wb'.
Proof.
  intros Hd.
  unfold write. destruct (layers self) as [|l ls] eqn:Hl; simpl; [done|].
  unfold bind, lift, set_layers_entry, get_params, imwrite, ret, raise.
  destruct (_prep_layers self) as [e0|prepared]; simpl; [done|].
  rewrite (with_layers_agree _ _ (Some (mk_PsdLayers LAYER false prepared)) Hd).
  destruct (overlay (l :: ls) (shape self)) as [e1|composite]; [done|].
  destruct (tifftag _) as [e2|source_tag]; [done|].
  destruct (cms_profile "srgb") as [e3|profile]; simpl; [done|].
  destruct (imwrite_raises filepath _) as [e4|]; simpl; [done|].
  split; [done|]. intros wa' [= <-]. eexists. split; [reflexivity|]. simpl.
  split; [by rewrite !lookup_insert_eq|]. done.
Qed.

(** A [write] that raises changes no dictionary entry other than
    "layers" either. *)
Lemma write_raises_other_entries self filepath w e w' :
  write self filepath w = (inl e, w') →
  with_layers (PARAMS_DICT w') None = with_layers (PARAMS_DICT w) None.
Proof.
  unfold write. destruct (layers self) as [|l ls] eqn:Hl; simpl.
  { by intros [= _ <-]. }
  unfold bind, lift, set_layers_entry, get_params, imwrite, ret, raise.
  destruct (_prep_layers self) as [e0|prepared]; simpl.
  { by intros [= _ <-]. }
  destruct (overlay (l :: ls) (shape self)) as [e1|composite];
    [by intros [= _ <-]|].
  destruct (tifftag _) as [e2|source_tag]; [by intros [= _ <-]|].
  destruct (cms_profile "srgb") as [e3|profile]; simpl; [by intros [= _ <-]|].
  destruct (imwrite_raises filepath _) as [e4|]; simpl; [|done].
  by intros [= _ <-].
Qed.

(** X11. After a [write] that raised, however far it got, another
    [write] on the same store ends as it would have ended without the
    failed call: with the same exception or, if it returns, with the same
    file at its path and the same dictionary afterwards.  The "layers"
    entry a failed call leaves behind is never read. *)
Theorem write_after_failed_write self filepath1 filepath2 w e w1 :
  write self filepath1 w = (inl e, w1) →
  (write self filepath2 w1).1 = (write self filepath2 w).1
  ∧ ∀ w2, write self filepath2 w1 = (inr tt, w2) →
      layers_entry (PARAMS_DICT w2) = None
      ∧ ∃ w2', write self filepath2 w = (inr tt, w2')
               ∧ files w2 !! filepath2 = files w2' !! filepath2
               ∧ PARAMS_DICT w2 = PARAMS_DICT w2'.
Proof.
  intros Hfail.
  assert (with_layers (PARAMS_DICT w1) None = with_layers (PARAMS_DICT w) None)
    as Hd.
  { by apply write_raises_other_entries in Hfail. }
  destruct (write_depends_on_other_entries self filepath2 w1 w Hd)
    as [Hres Hfile].
  split; [done|]. intros w2 Hw2. split; [|by apply Hfile].
  by apply write_returns_inv in Hw2
    as (? & ? & ? & ? & _ & _ & _ & _ & _ & _ & ->).
Qed.

End WriterEdges.

Lemma write_returns_iff_witness :
  ∃ w', @write sample_libs sample_store "out.tif" initial_world = (inr tt, w').
Proof.
  apply (@write_returns_iff sample_libs sample_store "out.tif" initial_world).
  split; [discriminate|]. split; [repeat constructor|].
  eexists _, _, _, _.
  split; [vm_compute; reflexivity|]. split; [reflexivity|].
  split; [reflexivity|]. split; reflexivity.
Defined.

Lemma write_raises_cases_witness :
  ∃ e w',
    @write sample_libs sample_store "" initial_world = (inl e, w')
    ∧ ∃ prepared,
        @_prep_layers sample_libs sample_store = inr prepared
        ∧ stdout w' = stdout initial_world
        ∧ PARAMS_DICT w'
          = with_layers (PARAMS_DICT initial_world)
              (Some (mk_PsdLayers LAYER false prepared))
        ∧ files w' = files initial_world.
Proof.
  eexists _, _. split; [vm_compute; reflexivity|].
  destruct (@write_raises_cases sample_libs sample_store "" initial_world
              _ _ eq_refl)
    as [(Hempty & _)|[(_ & Hprep & _)|(prepared & _ & Hprep & Hout & Hd & _)]].
  - discriminate Hempty.
  - discriminate Hprep.
  - exists prepared. split; [exact Hprep|]. split; [exact Hout|].
    split; [exact Hd|]. reflexivity.
Defined.

Lemma write_returns_frame_witness :
  ∃ w',
    @write sample_libs sample_store "out.tif" initial_world = (inr tt, w')
    ∧ stdout w' = stdout initial_world
    ∧ (∀ other, other ≠ "out.tif" →
         files w' !! other = files initial_world !! other)
    ∧ with_layers (PARAMS_DICT w') None
      = with_layers (PARAMS_DICT initial_world) None
    ∧ (layers_entry (PARAMS_DICT initial_world) = None →
       PARAMS_DICT w' = PARAMS_DICT initial_world).
Proof.
  eexists. split; [vm_compute; reflexivity|].
  exact (@write_returns_frame sample_libs sample_store "out.tif"
           initial_world _ eq_refl).
Defined.

Lemma write_after_failed_write_witness :
  ∃ e w1,
    @write sample_libs sample_store "" initial_world = (inl e, w1)
    ∧ layers_entry (PARAMS_DICT w1) ≠ None
    ∧ (@write sample_libs sample_store "out.tif" w1).1
      = (@write sample_libs sample_store "out.tif" initial_world).1
    ∧ ∀ w2,
        @write sample_libs sample_store "out.tif" w1 = (inr tt, w2) →
        layers_entry (PARAMS_DICT w2) = None
        ∧ ∃ w2',
            @write sample_libs sample_store "out.tif" initial_world
            = (inr tt, w2')
            ∧ files w2 !! "out.tif" = files w2' !! "out.tif"
            ∧ PARAMS_DICT w2 = PARAMS_DICT w2'.
Proof.
  eexists _, _. split; [vm_compute; reflexivity|].
  split; [discriminate|].
  exact (@write_after_failed_write sample_libs sample_store "" "out.tif"
           initial_world _ _ eq_refl).
Defined.

(** ** The image source data *)

Section SourceData.
Context `{Libs}.

(** X12. When the shared dictionary is as the module created it, the
    first extra tag of the file a returning [write] produces is made by
    [tifftag] from the name "Layered TIFF", the format LE32BIT, the user
    mask and the two info entries of the dictionary, and the layer list
    with key LAYER, no transparency and the records of [_prep_layers];
    afterwards the dictionary is again as the module created it. *)
Theorem write_from_module_dictionary (self : CSPSTiff) (filepath : string)
    (w w' : World) :
  PARAMS_DICT w = TIFFIMAGESOURCEDATA_PARAMS_DICT →
  write self filepath w = (inr tt, w') →
  PARAMS_DICT w' = TIFFIMAGESOURCEDATA_PARAMS_DICT
  ∧ ∃ prepared f source_tag,
      _prep_layers self = inr prepared
      ∧ files w' !! filepath = Some f
      ∧ extratags f !! 0%nat = Some source_tag
      ∧ tifftag
          {| isd_name := "Layered TIFF";
             psdformat := LE32BIT;
             layers_entry :=
               Some {| ls_key := LAYER; has_transparency := false;
                       ls_layers := prepared |};
             usermask := mk_PsdUserMask RGB (65535, 0, 0, 0) 50;
             isd_info := [PsdEmpty PATTERNS;
                          PsdFilterMask RGB (65535, 0, 0, 0) 50] |}
        = inr source_tag.
Proof.
  intros Hd (prepared & composite & source_tag & profile
             & _ & Hprep & _ & Htag & _ & _ & ->)%write_returns_inv.
  rewrite Hd in *. simpl. split; [done|].
  exists prepared, (tiff_of composite source_tag profile), source_tag.
  split; [done|]. split; [apply lookup_insert_eq|]. done.
Qed.

End SourceData.

Lemma write_from_module_dictionary_witness :
  ∃ w',
    @write sample_libs sample_store "out.tif" initial_world = (inr tt, w')
    ∧ PARAMS_DICT w' = TIFFIMAGESOURCEDATA_PARAMS_DICT
    ∧ ∃ prepared f source_tag,
        @_prep_layers sample_libs sample_store = inr prepared
        ∧ files w' !! "out.tif" = Some f
        ∧ extratags f !! 0%nat = Some source_tag
        ∧ @tifftag sample_libs
            {| isd_name := "Layered TIFF";
               psdformat := LE32BIT;
               layers_entry :=
                 Some {| ls_key := LAYER; has_transparency := false;
                         ls_layers := prepared |};
               usermask := mk_PsdUserMask RGB (65535, 0, 0, 0) 50;
               isd_info := [PsdEmpty PATTERNS;
                            PsdFilterMask RGB (65535, 0, 0, 0) 50] |}
          = inr source_tag.
Proof.
  eexists. split; [vm_compute; reflexivity|].
  exact (@write_from_module_dictionary sample_libs sample_store "out.tif"
           initial_world _ eq_refl eq_refl).
Defined.
